(** * nanobot: configuration schema and provider selection

    A shallow embedding of [nanobot/config/schema.py] (the pydantic
    settings tree and the three accessors of the root [Config]) and of
    the provider factory exported by [nanobot/providers/__init__.py].

    Python [str] is [string], [int] is [Z], [float] is an IEEE-754
    binary64 value ([spec_float]), [str | None] is [option string] and
    [list[str]] is [list string].  Every pydantic class is a record in a
    module of its own name, so that field names stay those of the
    source. *)

From Stdlib Require Import String Ascii List ZArith Bool Lia.
From Stdlib Require Import Floats.SpecFloat.
Import ListNotations.

Local Open Scope string_scope.
Local Open Scope Z_scope.

(** ** Python values used by the schema *)

(** Truthiness of a [str]: only the empty string is falsy. *)
Definition str_truthy (s : string) : bool :=
  match s with
  | EmptyString => false
  | String _ _ => true
  end.

(** Truthiness of a [str | None]. *)
Definition opt_str_truthy (o : option string) : bool :=
  match o with
  | None => false
  | Some s => str_truthy s
  end.

(** [x or None] for [x : str]. *)
Definition str_or_None (s : string) : option string :=
  if str_truthy s then Some s else None.

(** [x or None] for [x : str | None]. *)
Definition opt_str_or_None (o : option string) : option string :=
  if opt_str_truthy o then o else None.

(** The float literal [0.7]: [0x1.6666666666666p-1]. *)
Definition float_0_7 : spec_float := S754_finite false 6305039478318694 (-53).

Definition float_zero : spec_float := S754_zero false.

(** ** The settings tree of [schema.py] *)

Module WhatsAppConfig.
Record t := mk {
  enabled : bool;
  bridge_url : string;
  allow_from : list string
}.
Definition default : t := mk false "ws://localhost:3001" [].
End WhatsAppConfig.

Module TelegramConfig.
Record t := mk {
  enabled : bool;
  token : string;
  allow_from : list string;
  proxy : option string
}.
Definition default : t := mk false "" [] None.
End TelegramConfig.

Module FeishuConfig.
Record t := mk {
  enabled : bool;
  app_id : string;
  app_secret : string;
  encrypt_key : string;
  verification_token : string;
  allow_from : list string
}.
Definition default : t := mk false "" "" "" "" [].
End FeishuConfig.

Module ChannelsConfig.
Record t := mk {
  whatsapp : WhatsAppConfig.t;
  telegram : TelegramConfig.t;
  feishu : FeishuConfig.t
}.
Definition default : t :=
  mk WhatsAppConfig.default TelegramConfig.default FeishuConfig.default.
End ChannelsConfig.

Module AgentDefaults.
Record t := mk {
  workspace : string;
  model : string;
  max_tokens : Z;
  temperature : spec_float;
  max_tool_iterations : Z
}.
Definition default : t :=
  mk "~/.nanobot/workspace" "gpt-4o" 8192 float_0_7 20.

(** Keyword arguments of the constructor: a field that is not passed
    is [None] here and takes its declared default.  The arguments are
    already of the declared types; the class declares no [Field]
    constraint and no validator, so nothing else is checked. *)
Record kwargs := mk_kwargs {
  kw_workspace : option string;
  kw_model : option string;
  kw_max_tokens : option Z;
  kw_temperature : option spec_float;
  kw_max_tool_iterations : option Z
}.

Definition no_kwargs : kwargs := mk_kwargs None None None None None.

Definition pick {A : Type} (given : option A) (declared : A) : A :=
  match given with
  | Some v => v
  | None => declared
  end.

(** The call [AgentDefaults(...)] with keyword arguments [kw]. *)
Definition init (kw : kwargs) : t :=
  mk (pick (kw_workspace kw) (workspace default))
     (pick (kw_model kw) (model default))
     (pick (kw_max_tokens kw) (max_tokens default))
     (pick (kw_temperature kw) (temperature default))
     (pick (kw_max_tool_iterations kw) (max_tool_iterations default)).

(** The bounds the specification calls the invariant of the class:
    [max_tokens > 0] and [0 <= temperature]. *)
Definition in_bounds (a : t) : bool :=
  (0 <? max_tokens a) && SFleb float_zero (temperature a).
End AgentDefaults.

Module AgentsConfig.
Record t := mk { defaults : AgentDefaults.t }.
Definition default : t := mk AgentDefaults.default.
End AgentsConfig.

Module OpenAIConfig.
Record t := mk {
  api_key : string;
  api_base : option string
}.
Definition default : t := mk "" None.
End OpenAIConfig.

Module AnthropicConfig.
Record t := mk {
  api_key : string;
  api_base : option string
}.
Definition default : t := mk "" None.
End AnthropicConfig.

Module GeminiConfig.
Record t := mk {
  api_key : string;
  api_base : option string
}.
Definition default : t := mk "" None.
End GeminiConfig.

Module GatewayConfig.
Record t := mk {
  host : string;
  port : Z
}.
Definition default : t := mk "0.0.0.0" 18790.
End GatewayConfig.

Module WebSearchConfig.
Record t := mk {
  api_key : string;
  max_results : Z
}.
Definition default : t := mk "" 5.
End WebSearchConfig.

Module WebToolsConfig.
Record t := mk { search : WebSearchConfig.t }.
Definition default : t := mk WebSearchConfig.default.
End WebToolsConfig.

Module ExecToolConfig.
Record t := mk {
  timeout : Z;
  restrict_to_workspace : bool
}.
Definition default : t := mk 60 false.
End ExecToolConfig.

Module ToolsConfig.
Record t := mk {
  web : WebToolsConfig.t;
  exec : ExecToolConfig.t
}.
Definition default : t := mk WebToolsConfig.default ExecToolConfig.default.
End ToolsConfig.

(** ** Results of calls that may raise *)

Inductive result (E A : Type) : Type :=
  | Ok (a : A)
  | Raise (e : E).

Arguments Ok {E A} a.
Arguments Raise {E A} e.

(** ** [pathlib] and [os.path], POSIX flavour

    [workspace_path] is [Path(...).expanduser()].  The part of the
    standard library it runs is embedded here: how [Path] parses a
    string, [os.path.expanduser] and [Path.expanduser]. *)

Module pathlib.

Definition sep : ascii := "/"%char.
Definition tilde : ascii := "~"%char.

(** [s.split('/')]. *)
Fixpoint split_sep (s : string) : list string :=
  match s with
  | EmptyString => [EmptyString]
  | String c r =>
      if Ascii.eqb c sep then EmptyString :: split_sep r
      else match split_sep r with
           | h :: t => String c h :: t
           | [] => [String c EmptyString]
           end
  end.

(** [s[:1] == c]. *)
Definition starts_with (c : ascii) (s : string) : bool :=
  match s with
  | String a _ => Ascii.eqb a c
  | EmptyString => false
  end.

(** [posixpath.splitroot]: the root is ["/"], or ["//"] for exactly two
    leading slashes, or empty. *)
Definition splitroot (p : string) : string * string :=
  match p with
  | String a r1 =>
      if Ascii.eqb a sep then
        match r1 with
        | String b r2 =>
            if Ascii.eqb b sep then
              if starts_with sep r2 then ("/", r1) else ("//", r2)
            else ("/", r1)
        | EmptyString => ("/", r1)
        end
      else ("", p)
  | EmptyString => ("", p)
  end.

(** The components kept by the parser: [x and x != '.']. *)
Definition kept (x : string) : bool :=
  str_truthy x && negb (String.eqb x ".").

(** A parsed path; the drive is always empty on POSIX. *)
Record PurePath := mk_path {
  root : string;
  tail : list string
}.

(** [Path(s)]. *)
Definition Path (s : string) : PurePath :=
  let (rt, rel) := splitroot s in
  mk_path rt (filter kept (split_sep rel)).

Definition is_absolute (p : PurePath) : bool := str_truthy (root p).

(** [p / s]: a rooted right operand replaces the left one. *)
Definition joinpath (p : PurePath) (s : string) : PurePath :=
  let q := Path s in
  if str_truthy (root q) then q
  else mk_path (root p) (tail p ++ tail q).

(** [s.rstrip('/')]. *)
Fixpoint rstrip_sep (s : string) : string :=
  match s with
  | EmptyString => EmptyString
  | String c r =>
      match rstrip_sep r with
      | EmptyString => if Ascii.eqb c sep then EmptyString else String c EmptyString
      | r' => String c r'
      end
  end.

(** [(s[:i], s[i:])] for [i] the index of the first separator of [s],
    or its length when there is none. *)
Fixpoint break_at_sep (s : string) : string * string :=
  match s with
  | EmptyString => (EmptyString, EmptyString)
  | String c r =>
      if Ascii.eqb c sep then (EmptyString, s)
      else let (name, rest) := break_at_sep r in (String c name, rest)
  end.

(** What [os.path.expanduser] reads from the process: [os.environ]'s
    [HOME], the home directory of the current uid in the password
    database, and the home directory of a named user ([None] where the
    lookup raises [KeyError]).  The lookup by name is that of names
    without a NUL character: for a name that holds one, [pwd.getpwnam]
    raises [ValueError] instead, an outcome this record does not
    describe. *)
Record os_env := mk_env {
  environ_HOME : option string;
  getpwuid_dir : option string;
  getpwnam_dir : string -> option string
}.

(** [os.path.expanduser(path)]. *)
Definition os_path_expanduser (env : os_env) (path : string) : string :=
  match path with
  | String c after =>
      if Ascii.eqb c tilde then
        let (name, rest) := break_at_sep after in
        let userhome :=
          match name with
          | EmptyString =>
              match environ_HOME env with
              | Some h => Some h
              | None => getpwuid_dir env
              end
          | _ => getpwnam_dir env name
          end in
        match userhome with
        | None => path
        | Some h =>
            match rstrip_sep h ++ rest with
            | EmptyString => "/"
            | expanded => expanded
            end
        end
      else path
  | EmptyString => path
  end.

Inductive RuntimeError : Type :=
  | Could_not_determine_home_directory.

(** The guard of [Path.expanduser]: no root and a first component that
    begins with a tilde. *)
Definition tilde_leading (p : PurePath) : bool :=
  negb (str_truthy (root p)) &&
  match tail p with
  | first :: _ => starts_with tilde first
  | [] => false
  end.

(** [p.expanduser()]. *)
Definition expanduser (env : os_env) (p : PurePath) : result RuntimeError PurePath :=
  if tilde_leading p then
    match tail p with
    | first :: others =>
        let homedir := os_path_expanduser env first in
        if starts_with tilde homedir then Raise Could_not_determine_home_directory
        else let h := Path homedir in
             Ok (mk_path (root h) (tail h ++ others))
    | [] => Ok p
    end
  else Ok p.

(** [Path.home()], which is [Path("~").expanduser()]. *)
Definition home (env : os_env) : result RuntimeError PurePath :=
  expanduser env (Path "~").

End pathlib.

(** ** The root [Config] *)

Module Config.

Record t := mk {
  agents : AgentsConfig.t;
  channels : ChannelsConfig.t;
  openai : OpenAIConfig.t;
  anthropic : AnthropicConfig.t;
  gemini : GeminiConfig.t;
  gateway : GatewayConfig.t;
  tools : ToolsConfig.t
}.

Definition default : t :=
  mk AgentsConfig.default ChannelsConfig.default OpenAIConfig.default
     AnthropicConfig.default GeminiConfig.default GatewayConfig.default
     ToolsConfig.default.

(** The settings of the inner [class Config]. *)
Definition env_prefix : string := "NANOBOT_".
Definition env_nested_delimiter : string := "__".

(** A method body is a computation over [self]: it returns a value and
    the object as the body leaves it. *)
Definition method (A : Type) : Type := t -> A * t.

Definition ret {A : Type} (a : A) : method A := fun self => (a, self).

Definition bind {A B : Type} (m : method A) (k : A -> method B) : method B :=
  fun self => let (a, self') := m self in k a self'.

(** Reading an attribute path of [self]. *)
Definition getattr {A : Type} (f : t -> A) : method A := fun self => (f self, self).

Definition call {A : Type} (m : method A) (self : t) : A := fst (m self).
Definition self_after {A : Type} (m : method A) (self : t) : t := snd (m self).

Notation "x <- m ;; k" := (bind m (fun x => k))
  (at level 61, m at next level, right associativity).

(** [Path(self.agents.defaults.workspace).expanduser()]. *)
Definition workspace_path (env : pathlib.os_env)
  : method (result pathlib.RuntimeError pathlib.PurePath) :=
  ws <- getattr (fun self => AgentDefaults.workspace (AgentsConfig.defaults (agents self))) ;;
  ret (pathlib.expanduser env (pathlib.Path ws)).

(** [self.openai.api_key or None]. *)
Definition get_api_key : method (option string) :=
  key <- getattr (fun self => OpenAIConfig.api_key (openai self)) ;;
  ret (str_or_None key).

(** [self.openai.api_base or None]. *)
Definition get_api_base : method (option string) :=
  base <- getattr (fun self => OpenAIConfig.api_base (openai self)) ;;
  ret (opt_str_or_None base).

End Config.

(** ** The provider factory

    [nanobot/providers/__init__.py] re-exports the three provider
    classes and, from [nanobot.providers.factory], [create_provider] and
    [ProviderConfigError]. *)

Module providers.

(** Modelled from the spec: the backend families of the routing
    convention of [nanobot/providers/factory.py], which is not among the
    sources. *)
Inductive ProviderFamily : Type :=
  | OpenAICompatible
  | Anthropic
  | Gemini.

(** Modelled from the spec: what step 3 constructs a provider with (the
    provider classes are not among the sources). *)
Record provider_args := mk_args {
  model : string;
  api_key : string;
  api_base : option string
}.

(** The provider classes that [__init__.py] exports next to the
    factory, each holding what it was constructed with. *)
Inductive LLMProvider : Type :=
  | OpenAIProvider (args : provider_args)
  | AnthropicProvider (args : provider_args)
  | GeminiProvider (args : provider_args).

Definition family_of (p : LLMProvider) : ProviderFamily :=
  match p with
  | OpenAIProvider _ => OpenAICompatible
  | AnthropicProvider _ => Anthropic
  | GeminiProvider _ => Gemini
  end.

Definition args_of (p : LLMProvider) : provider_args :=
  match p with
  | OpenAIProvider a | AnthropicProvider a | GeminiProvider a => a
  end.

(** Modelled from the spec: the exceptions of [nanobot/providers/factory.py],
    which is not among the sources.  [ProviderConfigError] names the
    missing field and the family; the spec asks that the empty
    identifier be refused as invalid input without naming the
    exception, which is a case of its own here. *)
Inductive FactoryError : Type :=
  | ProviderConfigError (missing_field : string) (family : ProviderFamily)
  | InvalidModelIdentifier.

(** [s[len(p):]] when [s.startswith(p)]. *)
Fixpoint strip_prefix (p s : string) : option string :=
  match p with
  | EmptyString => Some s
  | String a p' =>
      match s with
      | String b s' => if Ascii.eqb a b then strip_prefix p' s' else None
      | EmptyString => None
      end
  end.

Definition anthropic_prefix : string := "@anthropic/".
Definition gemini_prefix : string := "@gemini/".

(** Modelled from the spec: step 1 of the algorithm of
    [create_provider] in [nanobot/providers/factory.py] (not among the
    sources): a recognized prefix selects its family and is stripped,
    anything else selects the OpenAI-compatible family and is kept
    whole. *)
Definition select_family (model_identifier : string) : ProviderFamily * string :=
  match strip_prefix anthropic_prefix model_identifier with
  | Some name => (Anthropic, name)
  | None =>
      match strip_prefix gemini_prefix model_identifier with
      | Some name => (Gemini, name)
      | None => (OpenAICompatible, model_identifier)
      end
  end.

(** Modelled from the spec: the configuration group that step 2 of the
    factory (not among the sources) looks up for a family: its key and
    its base. *)
Definition group_api_key (family : ProviderFamily) (config : Config.t) : string :=
  match family with
  | OpenAICompatible => OpenAIConfig.api_key (Config.openai config)
  | Anthropic => AnthropicConfig.api_key (Config.anthropic config)
  | Gemini => GeminiConfig.api_key (Config.gemini config)
  end.

Definition group_api_base (family : ProviderFamily) (config : Config.t) : option string :=
  match family with
  | OpenAICompatible => OpenAIConfig.api_base (Config.openai config)
  | Anthropic => AnthropicConfig.api_base (Config.anthropic config)
  | Gemini => GeminiConfig.api_base (Config.gemini config)
  end.

(** Modelled from the spec: step 3 of the factory (not among the
    sources), the class of the family applied to its arguments. *)
Definition construct (family : ProviderFamily) (args : provider_args) : LLMProvider :=
  match family with
  | OpenAICompatible => OpenAIProvider args
  | Anthropic => AnthropicProvider args
  | Gemini => GeminiProvider args
  end.

(** Modelled from the spec: [create_provider] of
    [nanobot/providers/factory.py], which is not among the sources.
    The numbered steps are taken in their order: select the family
    (1), refuse a group whose key is empty (2), construct the provider
    from the stripped name, the key and the base of the group (3) and
    return it (4).  Every family has an [api_key] field and is taken to
    require it.  The rule that the empty identifier is invalid input is
    not one of the numbered steps; it guards the construction. *)
Definition create_provider (model_identifier : string) (config : Config.t)
  : result FactoryError LLMProvider :=
  let (family, name) := select_family model_identifier in
  let key := group_api_key family config in
  if negb (str_truthy key) then Raise (ProviderConfigError "api_key" family)
  else if negb (str_truthy model_identifier) then Raise InvalidModelIdentifier
  else Ok (construct family (mk_args name key (group_api_base family config))).

(** The routing convention in the words of the specification: which
    family and which vendor model name an identifier stands for. *)
Inductive routes_to : string -> ProviderFamily -> string -> Prop :=
  | routes_anthropic (name : string) :
      routes_to ("@anthropic/" ++ name) Anthropic name
  | routes_gemini (name : string) :
      routes_to ("@gemini/" ++ name) Gemini name
  | routes_default (model_identifier : string) :
      (forall name, model_identifier <> "@anthropic/" ++ name) ->
      (forall name, model_identifier <> "@gemini/" ++ name) ->
      routes_to model_identifier OpenAICompatible model_identifier.

End providers.

(** ** Reading a workspace string as [Path] does

    Whether the first component that [Path] keeps of a relative path
    string begins with a tilde: separators and leading ["./"] segments
    are skipped, as the parser drops empty and dot components. *)
Fixpoint first_component_tilde (s : string) : bool :=
  match s with
  | EmptyString => false
  | String c r =>
      if Ascii.eqb c pathlib.sep then first_component_tilde r
      else if Ascii.eqb c pathlib.tilde then true
      else if Ascii.eqb c "."%char then
        match r with
        | EmptyString => false
        | String d r' =>
            if Ascii.eqb d pathlib.sep then first_component_tilde r' else false
        end
      else false
  end.

(** Whether [Path(s).expanduser()] is read off the string as an
    expansion: no leading separator and a first kept component that
    begins with a tilde. *)
Definition expands_user (s : string) : bool :=
  negb (pathlib.starts_with pathlib.sep s) && first_component_tilde s.

(** Whether a string holds a separator. *)
Fixpoint has_sep (s : string) : bool :=
  match s with
  | EmptyString => false
  | String c r => Ascii.eqb c pathlib.sep || has_sep r
  end.


(** A run of [n] separators. *)
Fixpoint seps (n : nat) : string :=
  match n with
  | O => EmptyString
  | S k => String pathlib.sep (seps k)
  end.

(** A well-formed component of a parsed path: not empty, not a dot and
    free of separators. *)
Definition component_ok (x : string) : bool :=
  pathlib.kept x && negb (has_sep x).

(** A process all of whose home directories are absolute: [HOME] when it
    is set, and every home directory of the password database. *)
Definition absolute_homes (env : pathlib.os_env) : Prop :=
  (forall h, pathlib.environ_HOME env = Some h -> pathlib.starts_with pathlib.sep h = true) /\
  (forall h, pathlib.getpwuid_dir env = Some h -> pathlib.starts_with pathlib.sep h = true) /\
  (forall name h, pathlib.getpwnam_dir env name = Some h ->
                  pathlib.starts_with pathlib.sep h = true).

(** What follows the user part of a tilde path: nothing, or a separator
    and the rest. *)
Definition user_suffix (suffix : string) : Prop :=
  suffix = "" \/ pathlib.starts_with pathlib.sep suffix = true.

(** ** Sample configurations *)

(** A configuration with a key in every provider group. *)
Definition config_with_keys : Config.t :=
  Config.mk AgentsConfig.default ChannelsConfig.default
    (OpenAIConfig.mk "sk-openai" (Some "https://api.deepseek.com/v1"))
    (AnthropicConfig.mk "sk-ant" None)
    (GeminiConfig.mk "g-key" None)
    GatewayConfig.default ToolsConfig.default.

(** The default configuration with another [openai] group. *)
Definition with_openai (o : OpenAIConfig.t) : Config.t :=
  Config.mk AgentsConfig.default ChannelsConfig.default o
    AnthropicConfig.default GeminiConfig.default
    GatewayConfig.default ToolsConfig.default.

(** The default configuration with another workspace. *)
Definition with_workspace (ws : string) : Config.t :=
  Config.mk
    (AgentsConfig.mk
       (AgentDefaults.init
          (AgentDefaults.mk_kwargs (Some ws) None None None None)))
    ChannelsConfig.default OpenAIConfig.default
    AnthropicConfig.default GeminiConfig.default
    GatewayConfig.default ToolsConfig.default.

(** A configuration with the [openai] group of [config_with_keys] and
    every other section different. *)
Definition config_other_sections : Config.t :=
  Config.mk
    (AgentsConfig.mk (AgentDefaults.mk "/srv/bot" "@gemini/gemini-pro" 1024 float_zero 3))
    (ChannelsConfig.mk
       (WhatsAppConfig.mk true "ws://bridge:9" ["+100"])
       (TelegramConfig.mk true "t0k" ["alice"] (Some "socks5://p"))
       (FeishuConfig.mk true "id" "secret" "enc" "ver" ["bob"]))
    (Config.openai config_with_keys)
    (AnthropicConfig.mk "" (Some "https://a.example"))
    (GeminiConfig.mk "other" (Some "https://g.example"))
    (GatewayConfig.mk "127.0.0.1" 8080)
    (ToolsConfig.mk (WebToolsConfig.mk (WebSearchConfig.mk "brave" 9))
                    (ExecToolConfig.mk 5 true)).

(** A process without [HOME] whose password database knows the user
    [deploy] only. *)
Definition env_deploy : pathlib.os_env :=
  pathlib.mk_env None None
    (fun name => if String.eqb name "deploy" then Some "/srv/deploy/" else None).

(** A process whose [HOME] is the relative path [relhome]. *)
Definition env_relhome : pathlib.os_env :=
  pathlib.mk_env (Some "relhome") None (fun _ => None).

(** A process whose [HOME] is [/home/nano]. *)
Definition env_nano : pathlib.os_env :=
  pathlib.mk_env (Some "/home/nano") None (fun _ => None).

(** * Properties *)

Import pathlib providers.

(** ** Method bodies that only read [self] *)

Lemma get_api_key_eq (cfg : Config.t) :
  Config.call Config.get_api_key cfg
  = str_or_None (OpenAIConfig.api_key (Config.openai cfg)).
Proof. reflexivity. Qed.

Lemma get_api_base_eq (cfg : Config.t) :
  Config.call Config.get_api_base cfg
  = opt_str_or_None (OpenAIConfig.api_base (Config.openai cfg)).
Proof. reflexivity. Qed.

Lemma workspace_path_eq (env : os_env) (cfg : Config.t) :
  Config.call (Config.workspace_path env) cfg
  = expanduser env
      (Path (AgentDefaults.workspace (AgentsConfig.defaults (Config.agents cfg)))).
Proof. reflexivity. Qed.

(** ** Truthiness *)

Lemma str_truthy_false (s : string) : str_truthy s = false <-> s = "".
Proof. destruct s; simpl; split; intro H; try reflexivity; discriminate. Qed.

Lemma str_truthy_true (s : string) : str_truthy s = true <-> s <> "".
Proof.
  destruct s; simpl; split; intro H; try reflexivity; try discriminate.
  now contradiction H.
Qed.

Lemma str_or_None_nonempty (s : string) : s <> "" -> str_or_None s = Some s.
Proof. intro H. unfold str_or_None. now rewrite (proj2 (str_truthy_true s) H). Qed.

Lemma str_or_None_never_empty (s : string) : str_or_None s <> Some "".
Proof. destruct s; simpl; discriminate. Qed.

Lemma opt_str_or_None_never_empty (o : option string) : opt_str_or_None o <> Some "".
Proof. destruct o as [[|c s]|]; simpl; discriminate. Qed.

(** ** Prefixes *)

Lemma strip_prefix_app (p rest : string) : strip_prefix p (p ++ rest) = Some rest.
Proof.
  induction p as [|a p IH]; simpl.
  - reflexivity.
  - now rewrite Ascii.eqb_refl.
Qed.

Lemma strip_prefix_Some (p s rest : string) :
  strip_prefix p s = Some rest -> s = p ++ rest.
Proof.
  revert s. induction p as [|a p IH]; simpl; intros s H.
  - now inversion H.
  - destruct s as [|b s]; [discriminate|].
    destruct (Ascii.eqb a b) eqn:E; [|discriminate].
    apply Ascii.eqb_eq in E. subst b. f_equal. now apply IH.
Qed.

Lemma strip_prefix_None (p s : string) :
  strip_prefix p s = None -> forall rest, s <> p ++ rest.
Proof.
  intros H rest ->. rewrite strip_prefix_app in H. discriminate.
Qed.

Lemma not_prefixed_strip (p s : string) :
  (forall rest, s <> p ++ rest) -> strip_prefix p s = None.
Proof.
  intro H. destruct (strip_prefix p s) as [rest|] eqn:E; [|reflexivity].
  apply strip_prefix_Some in E. now contradiction (H rest).
Qed.

(** The selection of step 1 is the routing convention. *)
Lemma routes_to_select_family (mid : string) (family : ProviderFamily) (name : string) :
  routes_to mid family name -> select_family mid = (family, name).
Proof.
  intros [m|m|m Ha Hg]; unfold select_family, anthropic_prefix, gemini_prefix.
  - now rewrite strip_prefix_app.
  - reflexivity.
  - now rewrite (not_prefixed_strip _ _ Ha), (not_prefixed_strip _ _ Hg).
Qed.

Lemma select_family_routes_to (mid : string) :
  routes_to mid (fst (select_family mid)) (snd (select_family mid)).
Proof.
  unfold select_family.
  destruct (strip_prefix anthropic_prefix mid) as [m|] eqn:Ea.
  - apply strip_prefix_Some in Ea. subst mid. apply routes_anthropic.
  - destruct (strip_prefix gemini_prefix mid) as [m|] eqn:Eg.
    + apply strip_prefix_Some in Eg. subst mid. apply routes_gemini.
    + apply routes_default.
      * exact (strip_prefix_None _ _ Ea).
      * exact (strip_prefix_None _ _ Eg).
Qed.

(** The two outcomes of the factory on a routed identifier. *)
Lemma create_provider_unfold (mid : string) (cfg : Config.t)
      (family : ProviderFamily) (name : string) :
  routes_to mid family name ->
  create_provider mid cfg =
    if negb (str_truthy (group_api_key family cfg))
    then Raise (ProviderConfigError "api_key" family)
    else if negb (str_truthy mid) then Raise InvalidModelIdentifier
    else Ok (construct family
               (mk_args name (group_api_key family cfg) (group_api_base family cfg))).
Proof.
  intro H. unfold create_provider. now rewrite (routes_to_select_family _ _ _ H).
Qed.

Lemma routes_to_bare (mid : string) :
  starts_with "@"%char mid = false -> routes_to mid OpenAICompatible mid.
Proof.
  intro H. apply routes_default; intros name ->; simpl in H; discriminate.
Qed.

(** ** The factory *)

(** C1 (as amended): for every model identifier and every configuration
    in which the group of the family the identifier routes to has a
    non-empty API key, and the identifier is not empty, [create_provider]
    returns the provider of that family: ["@anthropic/" ++ name] gives an
    Anthropic provider and ["@gemini/" ++ name] a Gemini provider, both
    with the model name [name]; an identifier with neither prefix gives
    an OpenAI-compatible provider with the whole identifier as model
    name.  The provider carries the key and the base of its group. *)
Theorem create_provider_routes_by_prefix
        (mid : string) (cfg : Config.t) (family : ProviderFamily) (name : string) :
  routes_to mid family name ->
  group_api_key family cfg <> "" ->
  mid <> "" ->
  exists p,
    create_provider mid cfg = Ok p /\
    family_of p = family /\
    model (args_of p) = name /\
    api_key (args_of p) = group_api_key family cfg /\
    api_base (args_of p) = group_api_base family cfg /\
    p = construct family (args_of p).
Proof.
  intros Hroute Hkey Hmid.
  rewrite (create_provider_unfold _ cfg _ _ Hroute).
  rewrite (proj2 (str_truthy_true _) Hkey), (proj2 (str_truthy_true _) Hmid).
  simpl. eexists. split; [reflexivity|].
  destruct family; simpl; repeat split; reflexivity.
Qed.

(** The claim's two examples, with a key configured in each group. *)
Lemma create_provider_routes_by_prefix_witness :
  (exists p,
     create_provider "@anthropic/claude-3" config_with_keys = Ok p /\
     family_of p = Anthropic /\ model (args_of p) = "claude-3" /\
     api_key (args_of p) = "sk-ant" /\ api_base (args_of p) = None /\
     p = construct Anthropic (args_of p)) /\
  (exists p,
     create_provider "gpt-4o" config_with_keys = Ok p /\
     family_of p = OpenAICompatible /\ model (args_of p) = "gpt-4o" /\
     api_key (args_of p) = "sk-openai" /\
     api_base (args_of p) = Some "https://api.deepseek.com/v1" /\
     p = construct OpenAICompatible (args_of p)).
Proof.
  split.
  - apply (create_provider_routes_by_prefix
             "@anthropic/claude-3" config_with_keys Anthropic "claude-3").
    + exact (routes_anthropic "claude-3").
    + simpl. discriminate.
    + discriminate.
  - apply (create_provider_routes_by_prefix
             "gpt-4o" config_with_keys OpenAICompatible "gpt-4o").
    + apply routes_to_bare. reflexivity.
    + simpl. discriminate.
    + discriminate.
Defined.

(** C1 as stated fails: with the default configuration, whose anthropic
    key is empty, ["@anthropic/claude-3"] routes to the Anthropic family
    and yet no provider is returned. *)
Lemma create_provider_routes_counterexample :
  routes_to "@anthropic/claude-3" Anthropic "claude-3" /\
  create_provider "@anthropic/claude-3" Config.default
    = Raise (ProviderConfigError "api_key" Anthropic) /\
  ~ (exists p, create_provider "@anthropic/claude-3" Config.default = Ok p).
Proof.
  split; [exact (routes_anthropic "claude-3")|].
  split; [reflexivity|].
  intros [p H]. vm_compute in H. discriminate.
Qed.

(** C2: whenever the key of the group of the family an identifier
    routes to is empty, [create_provider] raises [ProviderConfigError]
    naming the field [api_key] and that family, and returns no
    provider. *)
Theorem create_provider_missing_key
        (mid : string) (cfg : Config.t) (family : ProviderFamily) (name : string) :
  routes_to mid family name ->
  group_api_key family cfg = "" ->
  create_provider mid cfg = Raise (ProviderConfigError "api_key" family) /\
  (forall p, create_provider mid cfg <> Ok p).
Proof.
  intros Hroute Hkey.
  assert (E : create_provider mid cfg = Raise (ProviderConfigError "api_key" family)).
  { rewrite (create_provider_unfold _ cfg _ _ Hroute), Hkey. reflexivity. }
  split; [exact E|].
  intros p H. rewrite E in H. discriminate.
Qed.

(** The claim's example: an OpenAI key is configured, the anthropic one
    is not. *)
Lemma create_provider_missing_key_witness :
  AnthropicConfig.api_key
    (Config.anthropic (with_openai (OpenAIConfig.mk "sk-openai" None))) = "" /\
  create_provider "@anthropic/claude-3" (with_openai (OpenAIConfig.mk "sk-openai" None))
    = Raise (ProviderConfigError "api_key" Anthropic) /\
  (forall p, create_provider "@anthropic/claude-3"
               (with_openai (OpenAIConfig.mk "sk-openai" None)) <> Ok p).
Proof.
  split; [reflexivity|].
  apply (create_provider_missing_key
           "@anthropic/claude-3" (with_openai (OpenAIConfig.mk "sk-openai" None))
           Anthropic "claude-3").
  - exact (routes_anthropic "claude-3").
  - reflexivity.
Defined.

(** C7: the empty identifier never yields a provider; every identifier
    routes to one of the three families, so no family is unrecognized;
    and for a non-empty identifier the factory has one failure, the
    missing key of the selected group: it raises [ProviderConfigError]
    exactly when that key is empty and otherwise returns the provider
    determined by the identifier and the group. *)
Theorem create_provider_failure_branches :
  (forall cfg, exists e, create_provider "" cfg = Raise e) /\
  (forall mid, exists family name, routes_to mid family name) /\
  (forall mid cfg family name,
      mid <> "" ->
      routes_to mid family name ->
      (group_api_key family cfg = "" /\
       create_provider mid cfg = Raise (ProviderConfigError "api_key" family))
      \/
      (group_api_key family cfg <> "" /\
       create_provider mid cfg =
         Ok (construct family
               (mk_args name (group_api_key family cfg) (group_api_base family cfg))))).
Proof.
  split; [|split].
  - intro cfg. unfold create_provider. simpl.
    destruct (str_truthy (OpenAIConfig.api_key (Config.openai cfg)));
      simpl; eexists; reflexivity.
  - intro mid. exists (fst (select_family mid)), (snd (select_family mid)).
    apply select_family_routes_to.
  - intros mid cfg family name Hmid Hroute.
    rewrite (create_provider_unfold _ cfg _ _ Hroute).
    rewrite (proj2 (str_truthy_true _) Hmid).
    destruct (group_api_key family cfg) as [|c k] eqn:Ek; simpl.
    + left. split; reflexivity.
    + right. split; [discriminate | reflexivity].
Qed.

(** The three parts at concrete inputs: the empty identifier with every
    key configured, and ["@gemini/gemini-pro"] with and without a key. *)
Lemma create_provider_failure_branches_witness :
  create_provider "" config_with_keys = Raise InvalidModelIdentifier /\
  (create_provider "@gemini/gemini-pro" Config.default
     = Raise (ProviderConfigError "api_key" Gemini)) /\
  (create_provider "@gemini/gemini-pro" config_with_keys
     = Ok (GeminiProvider (mk_args "gemini-pro" "g-key" None))).
Proof.
  destruct create_provider_failure_branches as [Hempty [_ Hbranch]].
  split; [reflexivity|]. split.
  - destruct (Hbranch "@gemini/gemini-pro" Config.default Gemini "gemini-pro")
      as [[_ H]|[Hk _]].
    + discriminate.
    + exact (routes_gemini "gemini-pro").
    + exact H.
    + now contradiction Hk.
  - destruct (Hbranch "@gemini/gemini-pro" config_with_keys Gemini "gemini-pro")
      as [[Hk _]|[_ H]].
    + discriminate.
    + exact (routes_gemini "gemini-pro").
    + simpl in Hk. discriminate.
    + exact H.
Defined.

(** ** The accessors of [Config] *)

(** C3 (as amended): [get_api_key()] is [None] when [openai.api_key] is
    unset (the empty default) and [get_api_base()] is [None] when
    [openai.api_base] is unset ([None]); a field set to a non-empty
    string is returned as it is; a field set to the empty string reads
    as [None], so neither accessor ever returns the empty string. *)
Theorem accessors_None_or_nonempty_value (cfg : Config.t) :
  (OpenAIConfig.api_key (Config.openai cfg) = "" ->
   Config.call Config.get_api_key cfg = None) /\
  (OpenAIConfig.api_base (Config.openai cfg) = None ->
   Config.call Config.get_api_base cfg = None) /\
  (forall s, OpenAIConfig.api_key (Config.openai cfg) = s -> s <> "" ->
   Config.call Config.get_api_key cfg = Some s) /\
  (forall s, OpenAIConfig.api_base (Config.openai cfg) = Some s -> s <> "" ->
   Config.call Config.get_api_base cfg = Some s) /\
  (OpenAIConfig.api_base (Config.openai cfg) = Some "" ->
   Config.call Config.get_api_base cfg = None) /\
  Config.call Config.get_api_key cfg <> Some "" /\
  Config.call Config.get_api_base cfg <> Some "".
Proof.
  rewrite get_api_key_eq, get_api_base_eq.
  repeat split.
  - intros ->. reflexivity.
  - intros ->. reflexivity.
  - intros s <- Hs. now apply str_or_None_nonempty.
  - intros s -> Hs. destruct s; [now contradiction Hs | reflexivity].
  - intros ->. reflexivity.
  - apply str_or_None_never_empty.
  - apply opt_str_or_None_never_empty.
Qed.

(** A configuration with both fields set to non-empty strings. *)
Lemma accessors_None_or_nonempty_value_witness :
  Config.call Config.get_api_key config_with_keys = Some "sk-openai" /\
  Config.call Config.get_api_base config_with_keys
    = Some "https://api.deepseek.com/v1" /\
  Config.call Config.get_api_key Config.default = None /\
  Config.call Config.get_api_base Config.default = None.
Proof.
  destruct (accessors_None_or_nonempty_value config_with_keys)
    as (_ & _ & Hkey & Hbase & _).
  destruct (accessors_None_or_nonempty_value Config.default)
    as (Hk0 & Hb0 & _).
  split; [|split; [|split]].
  - apply Hkey; [reflexivity | discriminate].
  - apply Hbase; [reflexivity | discriminate].
  - apply Hk0. reflexivity.
  - apply Hb0. reflexivity.
Defined.

(** C3 as stated fails: [openai.api_base] set to the empty string is a
    set field, and the accessor returns [None], not the field's value. *)
Lemma get_api_base_set_counterexample :
  OpenAIConfig.api_base
    (Config.openai (with_openai (OpenAIConfig.mk "sk-openai" (Some "")))) = Some "" /\
  Config.call Config.get_api_base (with_openai (OpenAIConfig.mk "sk-openai" (Some "")))
    = None /\
  Config.call Config.get_api_base (with_openai (OpenAIConfig.mk "sk-openai" (Some "")))
    <> OpenAIConfig.api_base
         (Config.openai (with_openai (OpenAIConfig.mk "sk-openai" (Some "")))).
Proof. repeat split; try reflexivity. discriminate. Qed.

(** C8: an empty string reads as unset.  [get_api_key()] is [None] when
    [openai.api_key] is empty, [get_api_base()] is [None] both when
    [openai.api_base] is [None] and when it is empty, and two
    configurations, one with the base unset and one with the base
    empty, give the same [get_api_base()]. *)
Theorem accessors_empty_is_unset :
  (forall cfg, OpenAIConfig.api_key (Config.openai cfg) = "" ->
               Config.call Config.get_api_key cfg = None) /\
  (forall cfg, OpenAIConfig.api_base (Config.openai cfg) = None ->
               Config.call Config.get_api_base cfg = None) /\
  (forall cfg, OpenAIConfig.api_base (Config.openai cfg) = Some "" ->
               Config.call Config.get_api_base cfg = None) /\
  (forall unset empty,
      OpenAIConfig.api_base (Config.openai unset) = None ->
      OpenAIConfig.api_base (Config.openai empty) = Some "" ->
      Config.call Config.get_api_base unset = Config.call Config.get_api_base empty).
Proof.
  repeat split.
  - intros cfg H. rewrite get_api_key_eq, H. reflexivity.
  - intros cfg H. rewrite get_api_base_eq, H. reflexivity.
  - intros cfg H. rewrite get_api_base_eq, H. reflexivity.
  - intros unset empty Hu He. rewrite !get_api_base_eq, Hu, He. reflexivity.
Qed.

Lemma accessors_empty_is_unset_witness :
  Config.call Config.get_api_key (with_openai (OpenAIConfig.mk "" (Some ""))) = None /\
  Config.call Config.get_api_base (with_openai (OpenAIConfig.mk "" None)) = None /\
  Config.call Config.get_api_base (with_openai (OpenAIConfig.mk "" (Some ""))) = None /\
  Config.call Config.get_api_base (with_openai (OpenAIConfig.mk "" None))
    = Config.call Config.get_api_base (with_openai (OpenAIConfig.mk "" (Some ""))).
Proof.
  destruct accessors_empty_is_unset as (Hkey & Hnone & Hempty & Hsame).
  split; [|split; [|split]].
  - apply Hkey. reflexivity.
  - apply Hnone. reflexivity.
  - apply Hempty. reflexivity.
  - apply Hsame; reflexivity.
Defined.

(** C9: the accessors read the [openai] group only: two configurations
    with the same [openai] group give the same [get_api_key()] and the
    same [get_api_base()], whatever their other sections hold. *)
Theorem accessors_depend_on_openai_only (c1 c2 : Config.t) :
  Config.openai c1 = Config.openai c2 ->
  Config.call Config.get_api_key c1 = Config.call Config.get_api_key c2 /\
  Config.call Config.get_api_base c1 = Config.call Config.get_api_base c2.
Proof.
  intro H. rewrite !get_api_key_eq, !get_api_base_eq, H. split; reflexivity.
Qed.

Lemma accessors_depend_on_openai_only_witness :
  Config.openai config_with_keys = Config.openai config_other_sections /\
  Config.anthropic config_with_keys <> Config.anthropic config_other_sections /\
  Config.gateway config_with_keys <> Config.gateway config_other_sections /\
  Config.call Config.get_api_key config_with_keys
    = Config.call Config.get_api_key config_other_sections /\
  Config.call Config.get_api_base config_with_keys
    = Config.call Config.get_api_base config_other_sections.
Proof.
  split; [reflexivity|].
  split; [discriminate|].
  split; [discriminate|].
  apply (accessors_depend_on_openai_only config_with_keys config_other_sections).
  reflexivity.
Defined.

(** ** Construction of [AgentDefaults] *)

(** The constructor stores what it is given and fills the rest with the
    declared defaults. *)
Lemma AgentDefaults_init_fields (kw : AgentDefaults.kwargs) :
  AgentDefaults.max_tokens (AgentDefaults.init kw)
    = AgentDefaults.pick (AgentDefaults.kw_max_tokens kw) 8192 /\
  AgentDefaults.temperature (AgentDefaults.init kw)
    = AgentDefaults.pick (AgentDefaults.kw_temperature kw) float_0_7.
Proof. split; reflexivity. Qed.

(** C4 (as amended): construction checks no bound.  The declared
    defaults satisfy [max_tokens > 0] and [0 <= temperature]; the
    constructor stores a given [max_tokens] and a given [temperature]
    unchanged, so that a constructed value satisfies the two bounds
    exactly when every given one of the two does. *)
Theorem AgentDefaults_bounds_iff_given (kw : AgentDefaults.kwargs) :
  AgentDefaults.in_bounds AgentDefaults.default = true /\
  AgentDefaults.in_bounds (AgentDefaults.init AgentDefaults.no_kwargs) = true /\
  (forall n, AgentDefaults.kw_max_tokens kw = Some n ->
             AgentDefaults.max_tokens (AgentDefaults.init kw) = n) /\
  (forall x, AgentDefaults.kw_temperature kw = Some x ->
             AgentDefaults.temperature (AgentDefaults.init kw) = x) /\
  (AgentDefaults.in_bounds (AgentDefaults.init kw) = true <->
   (forall n, AgentDefaults.kw_max_tokens kw = Some n -> 0 < n) /\
   (forall x, AgentDefaults.kw_temperature kw = Some x -> SFleb float_zero x = true)).
Proof.
  split; [reflexivity|]. split; [reflexivity|].
  destruct kw as [ws md mt tp it]. unfold AgentDefaults.in_bounds. simpl.
  split; [|split].
  - intros n H. subst mt. reflexivity.
  - intros x H. subst tp. reflexivity.
  - rewrite andb_true_iff, Z.ltb_lt. split.
    + intros [Hm Ht]. split.
      * intros n H. subst mt. exact Hm.
      * intros x H. subst tp. exact Ht.
    + intros [Hm Ht]. split.
      * destruct mt as [n|]; simpl; [now apply Hm | lia].
      * destruct tp as [x|]; simpl; [now apply Ht | reflexivity].
Qed.

(** C4 as stated fails: [AgentDefaults(max_tokens=0)] and
    [AgentDefaults(temperature=-1.0)] are constructed, with the given
    values in their fields, and violate the bounds. *)
Lemma AgentDefaults_bounds_counterexample :
  AgentDefaults.max_tokens
    (AgentDefaults.init (AgentDefaults.mk_kwargs None None (Some 0) None None)) = 0 /\
  AgentDefaults.in_bounds
    (AgentDefaults.init (AgentDefaults.mk_kwargs None None (Some 0) None None)) = false /\
  AgentDefaults.temperature
    (AgentDefaults.init
       (AgentDefaults.mk_kwargs None None None
          (Some (S754_finite true 4503599627370496 (-52))) None))
    = S754_finite true 4503599627370496 (-52) /\
  AgentDefaults.in_bounds
    (AgentDefaults.init
       (AgentDefaults.mk_kwargs None None None
          (Some (S754_finite true 4503599627370496 (-52))) None)) = false /\
  ~ (forall kw, AgentDefaults.in_bounds (AgentDefaults.init kw) = true).
Proof.
  repeat split; try reflexivity.
  intro H.
  specialize (H (AgentDefaults.mk_kwargs None None (Some 0) None None)).
  vm_compute in H. discriminate.
Qed.

Lemma AgentDefaults_bounds_iff_given_witness :
  AgentDefaults.max_tokens
    (AgentDefaults.init (AgentDefaults.mk_kwargs None None (Some 4096) None None)) = 4096 /\
  AgentDefaults.in_bounds
    (AgentDefaults.init (AgentDefaults.mk_kwargs None None (Some 4096) None None)) = true.
Proof.
  destruct (AgentDefaults_bounds_iff_given
              (AgentDefaults.mk_kwargs None None (Some 4096) None None))
    as (_ & _ & Hstored & _ & Hiff).
  split.
  - apply Hstored. reflexivity.
  - apply Hiff. split.
    + intros n H. inversion H. lia.
    + intros x H. discriminate.
Defined.

(** ** Paths *)

Lemma split_sep_not_nil (s : string) : split_sep s <> [].
Proof.
  destruct s as [|c r]; simpl; [discriminate|].
  destruct (Ascii.eqb c sep); [discriminate|].
  destruct (split_sep r); discriminate.
Qed.

Lemma split_sep_cons (c : ascii) (r : string) :
  Ascii.eqb c sep = false ->
  exists h t, split_sep (String c r) = String c h :: t.
Proof.
  intro H. simpl. rewrite H.
  destruct (split_sep r) as [|h t]; eexists; eexists; reflexivity.
Qed.

(** A path that begins with a separator has a root. *)
Lemma Path_rooted (ws : string) :
  starts_with sep ws = true -> is_absolute (Path ws) = true.
Proof.
  destruct ws as [|a r1]; simpl; [discriminate|].
  intro H. unfold Path, splitroot. rewrite H.
  destruct r1 as [|b r2]; [reflexivity|].
  destruct (Ascii.eqb b sep); [|reflexivity].
  destruct (starts_with sep r2); reflexivity.
Qed.

Lemma rooted_not_tilde_leading (p : PurePath) :
  is_absolute p = true -> tilde_leading p = false.
Proof. unfold is_absolute, tilde_leading. intros ->. reflexivity. Qed.

(** A path that begins with a character other than a separator, a dot
    and a tilde has that character at the head of its first component. *)
Lemma Path_plain_start (c : ascii) (r : string) :
  Ascii.eqb c sep = false ->
  Ascii.eqb c "."%char = false ->
  Ascii.eqb c tilde = false ->
  tilde_leading (Path (String c r)) = false.
Proof.
  intros Hsep Hdot Htilde.
  unfold Path, splitroot. rewrite Hsep.
  destruct (split_sep_cons c r Hsep) as (h & t & E). rewrite E.
  unfold tilde_leading. simpl. unfold kept. simpl. rewrite Hdot. simpl.
  exact Htilde.
Qed.

(** [expanduser] returns the path itself unless the guard holds. *)
Lemma expanduser_unguarded (env : os_env) (p : PurePath) :
  tilde_leading p = false -> expanduser env p = Ok p.
Proof. intro H. unfold expanduser. now rewrite H. Qed.

(** [Path.home()] in terms of [os.path.expanduser("~")]. *)
Lemma home_eq (env : os_env) :
  home env =
    if starts_with tilde (os_path_expanduser env "~")
    then Raise Could_not_determine_home_directory
    else Ok (mk_path (root (Path (os_path_expanduser env "~")))
                     (tail (Path (os_path_expanduser env "~")) ++ [])).
Proof. reflexivity. Qed.

Lemma expanduser_default_workspace (env : os_env) :
  expanduser env (Path "~/.nanobot/workspace") =
    if starts_with tilde (os_path_expanduser env "~")
    then Raise Could_not_determine_home_directory
    else Ok (mk_path (root (Path (os_path_expanduser env "~")))
                     (tail (Path (os_path_expanduser env "~"))
                        ++ [".nanobot"; "workspace"])).
Proof. reflexivity. Qed.

Lemma joinpath_relative (p : PurePath) (s : string) :
  is_absolute (Path s) = false ->
  joinpath p s = mk_path (root p) (tail p ++ tail (Path s)).
Proof. unfold joinpath, is_absolute. intros ->. reflexivity. Qed.

(** The first kept component of a string, read off the string. *)
Lemma first_kept_tilde (s : string) :
  match filter kept (split_sep s) with
  | first :: _ => starts_with tilde first
  | [] => false
  end = first_component_tilde s.
Proof.
  induction s as [|c r IH]; [reflexivity|].
  cbn [split_sep first_component_tilde].
  destruct (Ascii.eqb c sep) eqn:Hsep.
  - cbn [filter kept str_truthy andb]. exact IH.
  - destruct (split_sep_cons c r Hsep) as (h & t & E).
    cbn [split_sep] in E. rewrite Hsep in E. rewrite E.
    destruct (Ascii.eqb c tilde) eqn:Htilde.
    + apply Ascii.eqb_eq in Htilde. subst c. reflexivity.
    + destruct (Ascii.eqb c "."%char) eqn:Hdot.
      * apply Ascii.eqb_eq in Hdot. subst c.
        destruct r as [|d r'].
        { cbn in E. inversion E. reflexivity. }
        cbn [split_sep first_component_tilde] in IH, E.
        destruct (Ascii.eqb d sep) eqn:Hd.
        { inversion E. subst h t. cbn [filter kept str_truthy andb] in IH |- *.
          exact IH. }
        destruct (split_sep r') as [|h' t'];
          inversion E; subst h t; reflexivity.
      * cbn [filter kept str_truthy andb String.eqb].
        rewrite Hdot. cbn [andb negb starts_with]. exact Htilde.
Qed.

(** The guard of [Path.expanduser], read off the string. *)
Lemma tilde_leading_Path (s : string) :
  tilde_leading (Path s) = expands_user s.
Proof.
  unfold expands_user.
  destruct (starts_with sep s) eqn:Hs.
  - now rewrite (rooted_not_tilde_leading _ (Path_rooted s Hs)).
  - assert (E : splitroot s = (EmptyString, s)).
    { destruct s as [|a r]; [reflexivity|]. cbn in Hs. cbn. now rewrite Hs. }
    unfold Path. rewrite E. unfold tilde_leading. cbn [root tail str_truthy negb andb].
    apply first_kept_tilde.
Qed.

(** A string that begins with neither a tilde nor a dot is not read as
    an expansion. *)
Lemma plain_start_not_expanded (s : string) :
  starts_with tilde s = false ->
  starts_with "."%char s = false ->
  expands_user s = false.
Proof.
  intros Ht Hd. rewrite <- tilde_leading_Path.
  destruct s as [|c r]; [reflexivity|].
  cbn in Ht, Hd.
  destruct (Ascii.eqb c sep) eqn:Hsep.
  - apply rooted_not_tilde_leading, Path_rooted. exact Hsep.
  - now apply Path_plain_start.
Qed.

(** C10 (as amended): [workspace_path] returns [Path(workspace)]
    unchanged for every workspace that begins with a separator (an
    absolute path) or whose first component, once the leading ["./"]
    segments and the separators that [Path] drops are skipped, does not
    begin with a tilde; this covers every workspace that begins with
    neither a tilde nor a dot. *)
Theorem workspace_path_unexpanded (env : os_env) (cfg : Config.t) :
  expands_user
    (AgentDefaults.workspace (AgentsConfig.defaults (Config.agents cfg))) = false ->
  Config.call (Config.workspace_path env) cfg
    = Ok (Path (AgentDefaults.workspace (AgentsConfig.defaults (Config.agents cfg)))).
Proof.
  intro H. rewrite workspace_path_eq.
  apply expanduser_unguarded. now rewrite tilde_leading_Path.
Qed.

(** An absolute workspace and a relative one. *)
Lemma workspace_path_unexpanded_witness :
  Config.call (Config.workspace_path env_nano) (with_workspace "/srv//nanobot/")
    = Ok (mk_path "/" ["srv"; "nanobot"]) /\
  Config.call (Config.workspace_path env_nano) (with_workspace "data/~cache")
    = Ok (mk_path "" ["data"; "~cache"]).
Proof.
  split.
  - apply (workspace_path_unexpanded env_nano (with_workspace "/srv//nanobot/")).
    reflexivity.
  - apply (workspace_path_unexpanded env_nano (with_workspace "data/~cache")).
    apply plain_start_not_expanded; reflexivity.
Defined.

(** C10 as stated fails: ["./~"] does not begin with a tilde, [Path]
    drops its leading dot component, and the remaining ["~"] is expanded
    to the home directory. *)
Lemma workspace_path_unexpanded_counterexample :
  starts_with tilde
    (AgentDefaults.workspace
       (AgentsConfig.defaults (Config.agents (with_workspace "./~")))) = false /\
  Path "./~" = mk_path "" ["~"] /\
  Config.call (Config.workspace_path env_nano) (with_workspace "./~")
    = Ok (mk_path "/" ["home"; "nano"]) /\
  Config.call (Config.workspace_path env_nano) (with_workspace "./~")
    <> Ok (Path "./~").
Proof. repeat split; try reflexivity. discriminate. Qed.

(** ** How [Path] reads a string *)

Lemma append_empty_r (s : string) : s ++ "" = s.
Proof. induction s as [|c s IH]; simpl; [reflexivity | now rewrite IH]. Qed.

(** Splitting at a separator splits the list of components. *)
Lemma split_sep_app (a b : string) :
  split_sep (a ++ String sep b) = (split_sep a ++ split_sep b)%list.
Proof.
  induction a as [|c a IH]; [reflexivity|].
  cbn [append split_sep]. rewrite IH.
  destruct (Ascii.eqb c sep); [reflexivity|].
  destruct (split_sep a) as [|h t] eqn:E; [|reflexivity].
  now contradiction (split_sep_not_nil a).
Qed.

Lemma split_sep_no_sep (s : string) : has_sep s = false -> split_sep s = [s].
Proof.
  induction s as [|c s IH]; [reflexivity|].
  cbn [has_sep split_sep]. intro H. apply orb_false_iff in H as [Hc Hs].
  rewrite Hc, (IH Hs). reflexivity.
Qed.

Lemma split_sep_components (s : string) :
  Forall (fun x => has_sep x = false) (split_sep s).
Proof.
  induction s as [|c s IH]; cbn [split_sep].
  - repeat constructor.
  - destruct (Ascii.eqb c sep) eqn:Hc.
    + constructor; [reflexivity | exact IH].
    + destruct (split_sep s) as [|h t].
      * constructor; [|constructor]. cbn. now rewrite Hc.
      * inversion IH as [|? ? Hh Ht]. subst.
        constructor; [|exact Ht]. cbn. now rewrite Hc.
Qed.

(** The components of a parsed path are those of the whole string. *)
Lemma tail_Path (s : string) : tail (Path s) = filter kept (split_sep s).
Proof.
  unfold Path, splitroot.
  destruct s as [|a r1]; [reflexivity|].
  destruct (Ascii.eqb a sep) eqn:Ha.
  - cbn [split_sep]. rewrite Ha.
    destruct r1 as [|b r2]; [reflexivity|].
    destruct (Ascii.eqb b sep) eqn:Hb; [|reflexivity].
    destruct (starts_with sep r2); [reflexivity|].
    cbn [split_sep]. rewrite Hb. reflexivity.
  - reflexivity.
Qed.

Lemma root_Path_relative (s : string) :
  starts_with sep s = false -> root (Path s) = "".
Proof.
  destruct s as [|a r]; [reflexivity|].
  cbn. intro H. unfold Path, splitroot. now rewrite H.
Qed.

Lemma is_absolute_Path (s : string) : is_absolute (Path s) = starts_with sep s.
Proof.
  destruct (starts_with sep s) eqn:H.
  - now apply Path_rooted.
  - unfold is_absolute. now rewrite (root_Path_relative s H).
Qed.

Lemma root_Path_cases (s : string) :
  root (Path s) = "" \/ root (Path s) = "/" \/ root (Path s) = "//".
Proof.
  unfold Path, splitroot.
  destruct s as [|a r1]; [now left|].
  destruct (Ascii.eqb a sep); [|now left].
  destruct r1 as [|b r2]; [now right; left|].
  destruct (Ascii.eqb b sep); [|now right; left].
  destruct (starts_with sep r2); [now right; left | now right; right].
Qed.

Lemma Path_components (s : string) :
  Forall (fun x => component_ok x = true) (tail (Path s)).
Proof.
  rewrite tail_Path. apply Forall_forall. intros x Hx.
  apply filter_In in Hx as [Hin Hkept].
  unfold component_ok. rewrite Hkept.
  pose proof (split_sep_components s) as Hall.
  rewrite Forall_forall in Hall. now rewrite (Hall x Hin).
Qed.

(** A tilde, a user name and what follows: the first component is the
    tilde with the name, the others are those of the suffix. *)
Lemma Path_tilde_user (name suffix : string) :
  has_sep name = false ->
  user_suffix suffix ->
  Path (String tilde (name ++ suffix))
  = mk_path "" (String tilde name :: tail (Path suffix)).
Proof.
  intros Hname Hsuf.
  assert (Hsplit : split_sep (String tilde (name ++ suffix))
                   = String tilde name :: match suffix with
                                          | EmptyString => []
                                          | String _ r => split_sep r
                                          end).
  { destruct Hsuf as [-> | Hs].
    - rewrite append_empty_r. cbn [split_sep].
      rewrite (split_sep_no_sep name Hname). reflexivity.
    - destruct suffix as [|c r]; [discriminate|].
      cbn in Hs. apply Ascii.eqb_eq in Hs. subst c.
      cbn [split_sep]. rewrite split_sep_app, (split_sep_no_sep name Hname).
      reflexivity. }
  assert (Htail : tail (Path suffix)
                  = filter kept match suffix with
                                | EmptyString => []
                                | String _ r => split_sep r
                                end).
  { rewrite tail_Path. destruct Hsuf as [-> | Hs]; [reflexivity|].
    destruct suffix as [|c r]; [discriminate|].
    cbn in Hs. cbn [split_sep]. rewrite Hs. reflexivity. }
  rewrite Htail.
  pose proof (tail_Path (String tilde (name ++ suffix))) as Ht.
  rewrite Hsplit in Ht. cbn [filter] in Ht.
  assert (Hk : kept (String tilde name) = true) by reflexivity.
  rewrite Hk in Ht.
  pose proof (root_Path_relative (String tilde (name ++ suffix)) eq_refl) as Hr.
  destruct (Path (String tilde (name ++ suffix))) as [rt tl].
  cbn in Ht, Hr. now subst.
Qed.

Lemma break_at_sep_no_sep (s : string) :
  has_sep s = false -> break_at_sep s = (s, "").
Proof.
  induction s as [|c s IH]; [reflexivity|].
  cbn [has_sep break_at_sep]. intro H. apply orb_false_iff in H as [Hc Hs].
  now rewrite Hc, (IH Hs).
Qed.

(** [expanduser] on a path whose first component begins with a tilde. *)
Lemma expanduser_tilde_first (env : os_env) (name : string) (others : list string) :
  expanduser env (mk_path "" (String tilde name :: others))
  = if starts_with tilde (os_path_expanduser env (String tilde name))
    then Raise Could_not_determine_home_directory
    else Ok (mk_path (root (Path (os_path_expanduser env (String tilde name))))
                     (tail (Path (os_path_expanduser env (String tilde name)))
                        ++ others)).
Proof. reflexivity. Qed.

(** The home directory that [os.path.expanduser] looks up for a user
    part: the caller's for the empty name, the named user's otherwise. *)
Lemma os_path_expanduser_user (env : os_env) (name : string) :
  has_sep name = false ->
  os_path_expanduser env (String tilde name)
  = match match name with
          | EmptyString =>
              match environ_HOME env with
              | Some h => Some h
              | None => getpwuid_dir env
              end
          | _ => getpwnam_dir env name
          end with
    | None => String tilde name
    | Some h => match rstrip_sep h with
                | EmptyString => "/"
                | expanded => expanded
                end
    end.
Proof.
  intro H. unfold os_path_expanduser. rewrite Ascii.eqb_refl.
  rewrite (break_at_sep_no_sep name H).
  destruct (match name with
            | EmptyString =>
                match environ_HOME env with
                | Some h => Some h
                | None => getpwuid_dir env
                end
            | String _ _ => getpwnam_dir env name
            end) as [h|]; [|reflexivity].
  now rewrite append_empty_r.
Qed.

(** ** More of [workspace_path] *)

(** X1: a workspace ["~/" ++ rest] is the caller's home directory
    followed by the components of [rest]; when [rest] does not begin
    with a separator this is [Path.home() / rest]. *)
Theorem workspace_path_under_home
        (env : os_env) (cfg : Config.t) (rest : string) (h : PurePath) :
  AgentDefaults.workspace (AgentsConfig.defaults (Config.agents cfg)) = "~/" ++ rest ->
  home env = Ok h ->
  Config.call (Config.workspace_path env) cfg
    = Ok (mk_path (root h) (tail h ++ tail (Path rest))) /\
  (starts_with sep rest = false ->
   Config.call (Config.workspace_path env) cfg = Ok (joinpath h rest)).
Proof.
  intros Hws Hhome.
  assert (E : Config.call (Config.workspace_path env) cfg
              = Ok (mk_path (root h) (tail h ++ tail (Path rest)))).
  { rewrite workspace_path_eq, Hws.
    change ("~/" ++ rest) with (String tilde ("" ++ String sep rest)).
    rewrite (Path_tilde_user "" (String sep rest) eq_refl (or_intror eq_refl)).
    rewrite expanduser_tilde_first.
    rewrite home_eq in Hhome.
    change (String tilde "") with "~".
    destruct (starts_with tilde (os_path_expanduser env "~")); [discriminate|].
    inversion Hhome as [Hh]. cbn [root tail]. rewrite app_nil_r.
    rewrite (tail_Path (String sep rest)), (tail_Path rest). reflexivity. }
  split; [exact E|].
  intro Hrel. rewrite E. f_equal. symmetry.
  apply joinpath_relative. now rewrite is_absolute_Path.
Qed.

Lemma workspace_path_under_home_witness :
  Config.call (Config.workspace_path env_nano) (with_workspace "~/bots//alpha/./logs/")
    = Ok (mk_path "/" ["home"; "nano"; "bots"; "alpha"; "logs"]) /\
  (starts_with sep "bots//alpha/./logs/" = false ->
   Config.call (Config.workspace_path env_nano) (with_workspace "~/bots//alpha/./logs/")
     = Ok (joinpath (mk_path "/" ["home"; "nano"]) "bots//alpha/./logs/")).
Proof.
  apply (workspace_path_under_home
           env_nano (with_workspace "~/bots//alpha/./logs/")
           "bots//alpha/./logs/" (mk_path "/" ["home"; "nano"])).
  - reflexivity.
  - reflexivity.
Defined.

(** X2: with no [HOME] in the environment and no entry for the caller
    in the password database, every workspace whose first component is
    a bare tilde makes [workspace_path] raise [RuntimeError]. *)
Theorem workspace_path_no_home
        (env : os_env) (cfg : Config.t) (suffix : string) :
  environ_HOME env = None ->
  getpwuid_dir env = None ->
  user_suffix suffix ->
  AgentDefaults.workspace (AgentsConfig.defaults (Config.agents cfg)) = "~" ++ suffix ->
  Config.call (Config.workspace_path env) cfg = Raise Could_not_determine_home_directory.
Proof.
  intros Hhome Hpw Hsuf Hws.
  rewrite workspace_path_eq, Hws.
  change ("~" ++ suffix) with (String tilde ("" ++ suffix)).
  rewrite (Path_tilde_user "" suffix eq_refl Hsuf), expanduser_tilde_first.
  rewrite (os_path_expanduser_user env "" eq_refl), Hhome, Hpw.
  reflexivity.
Qed.

Lemma workspace_path_no_home_witness :
  Config.call (Config.workspace_path env_deploy) Config.default
    = Raise Could_not_determine_home_directory /\
  Config.call (Config.workspace_path env_deploy) (with_workspace "~")
    = Raise Could_not_determine_home_directory.
Proof.
  split.
  - apply (workspace_path_no_home env_deploy Config.default "/.nanobot/workspace").
    + reflexivity.
    + reflexivity.
    + right. reflexivity.
    + reflexivity.
  - apply (workspace_path_no_home env_deploy (with_workspace "~") "").
    + reflexivity.
    + reflexivity.
    + left. reflexivity.
    + reflexivity.
Defined.



(** X4: ["~name" ++ suffix] for a user the password database knows
    expands as ["~" ++ suffix] does in a process whose [HOME] is that
    user's home directory; the caller's own [HOME] plays no part. *)
Theorem workspace_path_named_user
        (env : os_env) (cfg cfg_home : Config.t) (name suffix dir : string) :
  name <> "" ->
  has_sep name = false ->
  getpwnam_dir env name = Some dir ->
  user_suffix suffix ->
  AgentDefaults.workspace (AgentsConfig.defaults (Config.agents cfg))
    = "~" ++ name ++ suffix ->
  AgentDefaults.workspace (AgentsConfig.defaults (Config.agents cfg_home))
    = "~" ++ suffix ->
  Config.call (Config.workspace_path env) cfg
  = Config.call
      (Config.workspace_path (mk_env (Some dir) (getpwuid_dir env) (getpwnam_dir env)))
      cfg_home.
Proof.
  intros Hne Hname Hpw Hsuf Hws Hws'.
  rewrite !workspace_path_eq, Hws, Hws'.
  change ("~" ++ name ++ suffix) with (String tilde (name ++ suffix)).
  change ("~" ++ suffix) with (String tilde ("" ++ suffix)).
  rewrite (Path_tilde_user name suffix Hname Hsuf).
  rewrite (Path_tilde_user "" suffix eq_refl Hsuf).
  rewrite !expanduser_tilde_first.
  rewrite (os_path_expanduser_user env name Hname).
  rewrite (os_path_expanduser_user _ "" eq_refl).
  destruct name as [|c n]; [now contradiction Hne|].
  rewrite Hpw. reflexivity.
Qed.

Lemma workspace_path_named_user_witness :
  Config.call (Config.workspace_path env_deploy) (with_workspace "~deploy/bot")
  = Ok (mk_path "/" ["srv"; "deploy"; "bot"]) /\
  Config.call (Config.workspace_path env_deploy) (with_workspace "~deploy/bot")
  = Config.call
      (Config.workspace_path
         (mk_env (Some "/srv/deploy/") (getpwuid_dir env_deploy) (getpwnam_dir env_deploy)))
      (with_workspace "~/bot").
Proof.
  split; [reflexivity|].
  apply (workspace_path_named_user env_deploy
           (with_workspace "~deploy/bot") (with_workspace "~/bot")
           "deploy" "/bot" "/srv/deploy/").
  - discriminate.
  - reflexivity.
  - reflexivity.
  - right. reflexivity.
  - reflexivity.
  - reflexivity.
Defined.

Lemma rstrip_sep_app_sep (h : string) : rstrip_sep (h ++ "/") = rstrip_sep h.
Proof.
  induction h as [|c h IH]; [reflexivity|].
  cbn [append rstrip_sep]. now rewrite IH.
Qed.

Lemma os_path_expanduser_HOME_slash
      (h : string) (pw : option string) (gn : string -> option string) (path : string) :
  os_path_expanduser (mk_env (Some (h ++ "/")) pw gn) path
  = os_path_expanduser (mk_env (Some h) pw gn) path.
Proof.
  unfold os_path_expanduser. destruct path as [|c after]; [reflexivity|].
  destruct (Ascii.eqb c tilde); [|reflexivity].
  destruct (break_at_sep after) as [name rest].
  destruct name; [|reflexivity].
  cbn [environ_HOME]. now rewrite rstrip_sep_app_sep.
Qed.

(** X5: a separator at the end of [HOME] changes nothing: for every
    workspace, [workspace_path] is the same in a process whose [HOME] is
    [h ++ "/"] as in one whose [HOME] is [h]. *)
Theorem workspace_path_HOME_trailing_sep
        (h : string) (pw : option string) (gn : string -> option string)
        (cfg : Config.t) :
  Config.call (Config.workspace_path (mk_env (Some (h ++ "/")) pw gn)) cfg
  = Config.call (Config.workspace_path (mk_env (Some h) pw gn)) cfg.
Proof.
  rewrite !workspace_path_eq. unfold expanduser.
  destruct (tilde_leading _); [|reflexivity].
  destruct (tail _) as [|first others]; [reflexivity|].
  now rewrite os_path_expanduser_HOME_slash.
Qed.

Lemma rstrip_sep_head (c : ascii) (r : string) :
  rstrip_sep (String c r) = "" \/ exists r', rstrip_sep (String c r) = String c r'.
Proof.
  cbn [rstrip_sep]. destruct (rstrip_sep r) as [|d r'].
  - destruct (Ascii.eqb c sep); [now left | right; now eexists].
  - right. now eexists.
Qed.

Lemma break_at_sep_rest (s : string) :
  snd (break_at_sep s) = "" \/ starts_with sep (snd (break_at_sep s)) = true.
Proof.
  induction s as [|c s IH]; [now left|].
  cbn [break_at_sep]. destruct (Ascii.eqb c sep) eqn:Hc.
  - right. cbn. exact Hc.
  - destruct (break_at_sep s) as [name rest]. exact IH.
Qed.

Lemma expanded_absolute (h rest : string) :
  starts_with sep h = true ->
  rest = "" \/ starts_with sep rest = true ->
  starts_with sep match rstrip_sep h ++ rest with
                  | EmptyString => "/"
                  | String c e => String c e
                  end = true.
Proof.
  intros Hh Hrest. destruct h as [|c h]; [discriminate|].
  cbn in Hh.
  destruct (rstrip_sep_head c h) as [-> | [r' ->]].
  - cbn [append]. destruct Hrest as [-> | Hr]; [reflexivity|].
    destruct rest; [discriminate | exact Hr].
  - cbn. exact Hh.
Qed.

(** With absolute home directories, [os.path.expanduser] returns its
    argument or an absolute path. *)
Lemma os_path_expanduser_absolute (env : os_env) (path : string) :
  absolute_homes env ->
  os_path_expanduser env path = path \/
  starts_with sep (os_path_expanduser env path) = true.
Proof.
  intros (HH & Hu & Hn). unfold os_path_expanduser.
  destruct path as [|c after]; [now left|].
  destruct (Ascii.eqb c tilde); [|now left].
  pose proof (break_at_sep_rest after) as Hrest.
  destruct (break_at_sep after) as [name rest]. cbn [snd] in Hrest.
  destruct name as [|n0 n].
  - destruct (environ_HOME env) as [h|] eqn:E.
    + right. apply expanded_absolute; [now apply HH | exact Hrest].
    + destruct (getpwuid_dir env) as [h|] eqn:E'; [|now left].
      right. apply expanded_absolute; [now apply Hu | exact Hrest].
  - destruct (getpwnam_dir env (String n0 n)) as [h|] eqn:E; [|now left].
    right. apply expanded_absolute; [now apply (Hn _ _ E) | exact Hrest].
Qed.

(** The two ways [expanduser] succeeds when home directories are
    absolute: the path is returned as it is, or it is expanded to an
    absolute path. *)
Lemma expanduser_Ok_cases (env : os_env) (p r : PurePath) :
  absolute_homes env ->
  expanduser env p = Ok r ->
  (tilde_leading p = false /\ r = p) \/
  (tilde_leading p = true /\ is_absolute r = true).
Proof.
  intros Habs H. unfold expanduser in H.
  destruct (tilde_leading p) eqn:Eg.
  - right. split; [reflexivity|].
    unfold tilde_leading in Eg. apply andb_true_iff in Eg as [_ Efirst].
    destruct (tail p) as [|first others]; [discriminate|].
    destruct (starts_with tilde (os_path_expanduser env first)) eqn:Eh; [discriminate|].
    inversion H as [Hr].
    change (is_absolute (Path (os_path_expanduser env first)) = true).
    rewrite is_absolute_Path.
    destruct (os_path_expanduser_absolute env first Habs) as [Esame | Eabs].
    + rewrite Esame in Eh. rewrite Efirst in Eh. discriminate.
    + exact Eabs.
  - left. split; [reflexivity|]. now inversion H.
Qed.

(** X6: when every home directory is absolute, a path returned by
    [workspace_path] is absolute exactly when the workspace begins with
    a separator or is expanded; a plain relative workspace stays
    relative. *)
Theorem workspace_path_absolute_iff
        (env : os_env) (cfg : Config.t) (r : PurePath) :
  absolute_homes env ->
  Config.call (Config.workspace_path env) cfg = Ok r ->
  is_absolute r
  = starts_with sep (AgentDefaults.workspace (AgentsConfig.defaults (Config.agents cfg)))
    || expands_user (AgentDefaults.workspace (AgentsConfig.defaults (Config.agents cfg))).
Proof.
  intros Habs H. rewrite workspace_path_eq in H.
  destruct (expanduser_Ok_cases env _ r Habs H) as [[Eg ->] | [Eg Hr]];
    rewrite tilde_leading_Path in Eg; rewrite Eg.
  - rewrite is_absolute_Path. now rewrite orb_false_r.
  - rewrite Hr. now rewrite orb_true_r.
Qed.

Lemma env_nano_absolute_homes : absolute_homes env_nano.
Proof.
  repeat split.
  - intros h H. inversion H. reflexivity.
  - intros h H. discriminate.
  - intros name h H. discriminate.
Qed.

Lemma workspace_path_absolute_iff_witness :
  is_absolute (mk_path "" ["data"; "bot"]) = false /\
  is_absolute (mk_path "/" ["home"; "nano"; "bot"]) = true.
Proof.
  split.
  - apply (workspace_path_absolute_iff env_nano (with_workspace "data/bot")
             (mk_path "" ["data"; "bot"]) env_nano_absolute_homes).
    reflexivity.
  - apply (workspace_path_absolute_iff env_nano (with_workspace "~/bot")
             (mk_path "/" ["home"; "nano"; "bot"]) env_nano_absolute_homes).
    reflexivity.
Defined.

(** X7: when every home directory is absolute, expanding the result of
    [workspace_path] again returns it unchanged. *)
Theorem workspace_path_expanduser_idempotent
        (env : os_env) (cfg : Config.t) (r : PurePath) :
  absolute_homes env ->
  Config.call (Config.workspace_path env) cfg = Ok r ->
  expanduser env r = Ok r.
Proof.
  intros Habs H. rewrite workspace_path_eq in H.
  apply expanduser_unguarded.
  destruct (expanduser_Ok_cases env _ r Habs H) as [[Eg ->] | [_ Hr]].
  - exact Eg.
  - now apply rooted_not_tilde_leading.
Qed.

Lemma workspace_path_expanduser_idempotent_witness :
  expanduser env_nano (mk_path "/" ["home"; "nano"; ".nanobot"; "workspace"])
  = Ok (mk_path "/" ["home"; "nano"; ".nanobot"; "workspace"]).
Proof.
  apply (workspace_path_expanduser_idempotent env_nano Config.default
           (mk_path "/" ["home"; "nano"; ".nanobot"; "workspace"])
           env_nano_absolute_homes).
  reflexivity.
Defined.

(** X8: every component of a path returned by [workspace_path] is
    non-empty, is not a dot and holds no separator, and its root is
    empty, one separator or two: the result is always in the normal
    form of [Path], also after an expansion. *)
Theorem workspace_path_normal_form
        (env : os_env) (cfg : Config.t) (r : PurePath) :
  Config.call (Config.workspace_path env) cfg = Ok r ->
  Forall (fun x => component_ok x = true) (tail r) /\
  (root r = "" \/ root r = "/" \/ root r = "//").
Proof.
  rewrite workspace_path_eq.
  set (ws := AgentDefaults.workspace (AgentsConfig.defaults (Config.agents cfg))).
  pose proof (Path_components ws) as Hc.
  pose proof (root_Path_cases ws) as Hr.
  unfold expanduser. destruct (tilde_leading (Path ws)).
  - destruct (tail (Path ws)) as [|first others] eqn:Et.
    + intro H. inversion H. subst r. rewrite Et. split; [constructor | exact Hr].
    + destruct (starts_with tilde (os_path_expanduser env first)); [discriminate|].
      intro H. inversion H. cbn [root tail]. split.
      * apply Forall_app. split; [apply Path_components|].
        now inversion Hc.
      * apply root_Path_cases.
  - intro H. inversion H. subst r. split; assumption.
Qed.

Lemma workspace_path_normal_form_witness :
  Forall (fun x => component_ok x = true) ["home"; "nano"; "a"; ".."; "b"] /\
  ("/" = "" \/ "/" = "/" \/ "/" = "//").
Proof.
  apply (workspace_path_normal_form env_nano (with_workspace "~//a/./../b/")
           (mk_path "/" ["home"; "nano"; "a"; ".."; "b"])).
  reflexivity.
Defined.

Lemma Path_relative (s : string) :
  starts_with sep s = false -> Path s = mk_path "" (filter kept (split_sep s)).
Proof.
  intro H. pose proof (tail_Path s) as Ht. pose proof (root_Path_relative s H) as Hr.
  destruct (Path s) as [rt tl]. cbn in Ht, Hr. now subst.
Qed.

(** X9: a leading ["./"] is dropped: for a workspace that does not begin
    with a separator, ["./" ++ workspace] gives the same
    [workspace_path], expansion of a tilde included. *)
Theorem workspace_path_dot_prefix
        (env : os_env) (cfg cfg_dot : Config.t) :
  starts_with sep (AgentDefaults.workspace (AgentsConfig.defaults (Config.agents cfg)))
    = false ->
  AgentDefaults.workspace (AgentsConfig.defaults (Config.agents cfg_dot))
    = "./" ++ AgentDefaults.workspace (AgentsConfig.defaults (Config.agents cfg)) ->
  Config.call (Config.workspace_path env) cfg_dot
  = Config.call (Config.workspace_path env) cfg.
Proof.
  intros Hrel Hdot. rewrite !workspace_path_eq, Hdot.
  f_equal. rewrite (Path_relative _ Hrel).
  rewrite (Path_relative ("./" ++ _) eq_refl). reflexivity.
Qed.

Lemma workspace_path_dot_prefix_witness :
  Config.call (Config.workspace_path env_nano) (with_workspace "./~/bot")
  = Config.call (Config.workspace_path env_nano) (with_workspace "~/bot") /\
  Config.call (Config.workspace_path env_nano) (with_workspace "./~/bot")
  = Ok (mk_path "/" ["home"; "nano"; "bot"]).
Proof.
  split; [|reflexivity].
  apply (workspace_path_dot_prefix env_nano
           (with_workspace "~/bot") (with_workspace "./~/bot")); reflexivity.
Defined.

Lemma root_Path_trailing_sep (s : string) :
  s <> "" -> s <> "/" -> s <> "//" ->
  root (Path (s ++ "/")) = root (Path s).
Proof.
  intros H0 H1 H2. unfold Path, splitroot.
  destruct s as [|a r1]; [now contradiction H0|].
  cbn [append]. destruct (Ascii.eqb a sep) eqn:Ha; [|reflexivity].
  apply Ascii.eqb_eq in Ha. subst a.
  destruct r1 as [|b r2]; [now contradiction H1|].
  cbn [append]. destruct (Ascii.eqb b sep) eqn:Hb; [|reflexivity].
  apply Ascii.eqb_eq in Hb. subst b.
  destruct r2 as [|c r3]; [now contradiction H2|].
  cbn. destruct (Ascii.eqb c sep); reflexivity.
Qed.

Lemma Path_trailing_sep (s : string) :
  s <> "" -> s <> "/" -> s <> "//" -> Path (s ++ "/") = Path s.
Proof.
  intros H0 H1 H2.
  pose proof (root_Path_trailing_sep s H0 H1 H2) as Hr.
  pose proof (tail_Path (s ++ "/")) as Ht.
  change (s ++ "/") with (s ++ String sep "") in Ht at 2.
  rewrite split_sep_app, filter_app in Ht. cbn [split_sep filter kept str_truthy andb] in Ht.
  rewrite app_nil_r, <- tail_Path in Ht.
  destruct (Path (s ++ "/")) as [rt tl], (Path s) as [rt' tl'].
  cbn in Hr, Ht. now subst.
Qed.

(** X10: a separator at the end of the workspace changes nothing, except
    for the three workspaces [""], ["/"] and ["//"], where it changes
    the root. *)
Theorem workspace_path_trailing_sep
        (env : os_env) (cfg cfg_sep : Config.t) :
  AgentDefaults.workspace (AgentsConfig.defaults (Config.agents cfg)) <> "" ->
  AgentDefaults.workspace (AgentsConfig.defaults (Config.agents cfg)) <> "/" ->
  AgentDefaults.workspace (AgentsConfig.defaults (Config.agents cfg)) <> "//" ->
  AgentDefaults.workspace (AgentsConfig.defaults (Config.agents cfg_sep))
    = AgentDefaults.workspace (AgentsConfig.defaults (Config.agents cfg)) ++ "/" ->
  Config.call (Config.workspace_path env) cfg_sep
  = Config.call (Config.workspace_path env) cfg.
Proof.
  intros H0 H1 H2 Hsep. rewrite !workspace_path_eq, Hsep.
  now rewrite (Path_trailing_sep _ H0 H1 H2).
Qed.

Lemma workspace_path_trailing_sep_witness :
  Config.call (Config.workspace_path env_nano) (with_workspace "~/.nanobot/workspace/")
  = Config.call (Config.workspace_path env_nano) Config.default.
Proof.
  apply (workspace_path_trailing_sep env_nano
           Config.default (with_workspace "~/.nanobot/workspace/"));
    try discriminate; reflexivity.
Defined.

(** The three exceptions: the separator turns the relative empty path
    into the root, the root into the double root and back. *)
Lemma Path_trailing_sep_exceptions :
  Path ("" ++ "/") <> Path "" /\
  Path ("/" ++ "/") <> Path "/" /\
  Path ("//" ++ "/") <> Path "//".
Proof. repeat split; discriminate. Qed.


(** X12: a [HOME] that is empty or made of separators only stands for
    the root directory: a workspace ["~" ++ suffix] is then the absolute
    path of the components of [suffix]. *)
Theorem workspace_path_empty_HOME
        (env : os_env) (cfg : Config.t) (h suffix : string) :
  environ_HOME env = Some h ->
  rstrip_sep h = "" ->
  user_suffix suffix ->
  AgentDefaults.workspace (AgentsConfig.defaults (Config.agents cfg)) = "~" ++ suffix ->
  Config.call (Config.workspace_path env) cfg = Ok (mk_path "/" (tail (Path suffix))).
Proof.
  intros Hhome Hstrip Hsuf Hws.
  rewrite workspace_path_eq, Hws.
  change ("~" ++ suffix) with (String tilde ("" ++ suffix)).
  rewrite (Path_tilde_user "" suffix eq_refl Hsuf), expanduser_tilde_first.
  rewrite (os_path_expanduser_user env "" eq_refl), Hhome, Hstrip.
  reflexivity.
Qed.

Lemma workspace_path_empty_HOME_witness :
  Config.call (Config.workspace_path (mk_env (Some "") None (fun _ => None)))
    Config.default
  = Ok (mk_path "/" [".nanobot"; "workspace"]) /\
  Config.call (Config.workspace_path (mk_env (Some "//") None (fun _ => None)))
    (with_workspace "~")
  = Ok (mk_path "/" []).
Proof.
  split.
  - apply (workspace_path_empty_HOME (mk_env (Some "") None (fun _ => None))
             Config.default "" "/.nanobot/workspace").
    + reflexivity.
    + reflexivity.
    + right. reflexivity.
    + reflexivity.
  - apply (workspace_path_empty_HOME (mk_env (Some "//") None (fun _ => None))
             (with_workspace "~") "//" "").
    + reflexivity.
    + reflexivity.
    + left. reflexivity.
    + reflexivity.
Defined.

(** ** The home directory as a path *)

Lemma append_String_r (s : string) (c : ascii) (t : string) :
  s ++ String c t = (s ++ String c "") ++ t.
Proof. induction s as [|a s IH]; simpl; [reflexivity | now rewrite IH]. Qed.

Lemma seps_snoc (n : nat) : seps n ++ "/" = String sep (seps n).
Proof. induction n as [|n IH]; simpl; [reflexivity | now rewrite IH]. Qed.

Lemma append_seps_S (s : string) (n : nat) :
  s ++ seps (S n) = (s ++ seps n) ++ "/".
Proof.
  cbn [seps]. rewrite <- seps_snoc.
  induction s as [|a s IH]; simpl; [reflexivity | now rewrite IH].
Qed.

(** [rstrip] takes a run of separators off the end. *)
Lemma rstrip_sep_decompose (h : string) : exists n, h = rstrip_sep h ++ seps n.
Proof.
  induction h as [|c r [n IH]]; [now exists O|].
  cbn [rstrip_sep]. destruct (rstrip_sep r) as [|d r'] eqn:E.
  - cbn [append] in IH. destruct (Ascii.eqb c sep) eqn:Hc.
    + apply Ascii.eqb_eq in Hc. subst c. exists (S n). cbn. now rewrite <- IH.
    + exists n. cbn. now rewrite <- IH.
  - exists n. cbn [append]. now rewrite IH at 1.
Qed.

Lemma rstrip_sep_idempotent (h : string) : rstrip_sep (rstrip_sep h) = rstrip_sep h.
Proof.
  induction h as [|c r IH]; [reflexivity|].
  cbn [rstrip_sep]. destruct (rstrip_sep r) as [|d r'] eqn:E.
  - destruct (Ascii.eqb c sep) eqn:Hc; [reflexivity|].
    cbn. now rewrite Hc.
  - cbn [rstrip_sep] in IH |- *. now rewrite IH.
Qed.

Lemma rstrip_sep_app_seps (n : nat) (s : string) :
  rstrip_sep (s ++ seps n) = rstrip_sep s.
Proof.
  revert s. induction n as [|n IH]; intro s.
  - now rewrite append_empty_r.
  - cbn [seps]. rewrite append_String_r, IH. apply rstrip_sep_app_sep.
Qed.

(** Separators after a string that does not end with one do not change
    the path. *)
Lemma Path_app_seps (core : string) (n : nat) :
  rstrip_sep core = core -> core <> "" -> Path (core ++ seps n) = Path core.
Proof.
  intros Hcore Hne. induction n as [|n IH].
  - now rewrite append_empty_r.
  - rewrite append_seps_S, <- IH.
    assert (Hr : rstrip_sep (core ++ seps n) = core)
      by now rewrite rstrip_sep_app_seps.
    apply Path_trailing_sep; intro E; rewrite E in Hr; cbn in Hr;
      now contradiction Hne.
Qed.

Lemma split_seps_dropped (n : nat) : filter kept (split_sep (seps n)) = [].
Proof. induction n as [|n IH]; [reflexivity|]. cbn. exact IH. Qed.

(** A run of separators is the root, unless it is the double root. *)
Lemma Path_seps (n : nat) : n <> O -> n <> 2%nat -> Path (seps n) = Path "/".
Proof.
  intros H0 H2.
  destruct n as [|[|[|k]]]; [now contradiction H0 | reflexivity | now contradiction H2 |].
  unfold Path. cbn [seps splitroot]. rewrite Ascii.eqb_refl. cbn [starts_with].
  rewrite Ascii.eqb_refl.
  change (String sep (String sep (seps k))) with (seps (S (S k))).
  now rewrite split_seps_dropped.
Qed.

(** What [os.path.expanduser] makes of an absolute home directory is
    the same path, unless the directory is the double root. *)
Lemma Path_home_dir (h : string) :
  starts_with sep h = true ->
  h <> "//" ->
  Path match rstrip_sep h with
       | EmptyString => "/"
       | String c e => String c e
       end = Path h.
Proof.
  intros Habs Hne.
  destruct (rstrip_sep_decompose h) as [n Hn].
  pose proof (rstrip_sep_idempotent h) as Hidem.
  destruct (rstrip_sep h) as [|c e] eqn:E.
  - cbn [append] in Hn. subst h. symmetry. apply Path_seps.
    + intros ->. discriminate.
    + intros ->. now contradiction Hne.
  - rewrite Hn. symmetry. apply Path_app_seps; [exact Hidem | discriminate].
Qed.

Lemma home_dir_not_tilde (h : string) :
  starts_with sep h = true ->
  starts_with tilde match rstrip_sep h with
                    | EmptyString => "/"
                    | String c e => String c e
                    end = false.
Proof.
  intro Habs. destruct h as [|c r]; [discriminate|].
  cbn in Habs. apply Ascii.eqb_eq in Habs. subst c.
  destruct (rstrip_sep_head sep r) as [-> | [r' ->]]; reflexivity.
Qed.

(** C5 (as amended): when the workspace is ["~/.nanobot/workspace"] and
    the caller's home directory [h], which is [HOME] when it is set and
    otherwise the caller's entry in the password database, begins with a
    separator, [workspace_path] returns an absolute path made of the
    components of [h] followed by [.nanobot] and [workspace]: it is
    [Path(h) / ".nanobot/workspace"], except that the home directory
    ["//"] is read as ["/"].  The object is left as it was. *)
Theorem workspace_path_default_expands
        (env : os_env) (cfg : Config.t) (h : string) :
  AgentDefaults.workspace (AgentsConfig.defaults (Config.agents cfg))
    = "~/.nanobot/workspace" ->
  environ_HOME env = Some h \/ (environ_HOME env = None /\ getpwuid_dir env = Some h) ->
  starts_with sep h = true ->
  exists r,
    Config.call (Config.workspace_path env) cfg = Ok r /\
    is_absolute r = true /\
    tail r = (tail (Path h) ++ [".nanobot"; "workspace"])%list /\
    (h <> "//" -> r = joinpath (Path h) ".nanobot/workspace") /\
    (h = "//" -> root r = "/") /\
    Config.self_after (Config.workspace_path env) cfg = cfg.
Proof.
  intros Hws Hhome Habs.
  assert (Hexp : os_path_expanduser env "~"
                 = match rstrip_sep h with
                   | EmptyString => "/"
                   | String c e => String c e
                   end).
  { change "~" with (String tilde "").
    rewrite (os_path_expanduser_user env "" eq_refl).
    destruct Hhome as [-> | [-> ->]]; reflexivity. }
  rewrite workspace_path_eq, Hws, expanduser_default_workspace, Hexp.
  rewrite (home_dir_not_tilde h Habs).
  eexists. split; [reflexivity|].
  destruct (String.eqb h "//") eqn:Eh.
  - apply String.eqb_eq in Eh. subst h.
    split; [reflexivity|]. split; [reflexivity|].
    split; [intro H; now contradiction H|].
    split; reflexivity.
  - apply String.eqb_neq in Eh. rewrite (Path_home_dir h Habs Eh).
    cbn [root tail].
    split; [change (is_absolute (Path h) = true); now rewrite is_absolute_Path|].
    split; [reflexivity|].
    split; [intros _; symmetry; apply joinpath_relative; reflexivity|].
    split; [intro H; now contradiction Eh | reflexivity].
Qed.

(** The default configuration with [HOME=/home/nano], and with the home
    directory [/srv/deploy/] taken from the password database. *)
Lemma workspace_path_default_expands_witness :
  (exists r,
     Config.call (Config.workspace_path env_nano) Config.default = Ok r /\
     is_absolute r = true /\
     tail r = ["home"; "nano"; ".nanobot"; "workspace"] /\
     ("/home/nano" <> "//" -> r = joinpath (Path "/home/nano") ".nanobot/workspace") /\
     ("/home/nano" = "//" -> root r = "/") /\
     Config.self_after (Config.workspace_path env_nano) Config.default = Config.default) /\
  (exists r,
     Config.call
       (Config.workspace_path (mk_env None (Some "/srv/deploy/") (fun _ => None)))
       Config.default = Ok r /\
     is_absolute r = true /\
     tail r = ["srv"; "deploy"; ".nanobot"; "workspace"] /\
     ("/srv/deploy/" <> "//" -> r = joinpath (Path "/srv/deploy/") ".nanobot/workspace") /\
     ("/srv/deploy/" = "//" -> root r = "/") /\
     Config.self_after
       (Config.workspace_path (mk_env None (Some "/srv/deploy/") (fun _ => None)))
       Config.default = Config.default).
Proof.
  split.
  - apply (workspace_path_default_expands env_nano Config.default "/home/nano").
    + reflexivity.
    + left. reflexivity.
    + reflexivity.
  - apply (workspace_path_default_expands
             (mk_env None (Some "/srv/deploy/") (fun _ => None))
             Config.default "/srv/deploy/").
    + reflexivity.
    + right. split; reflexivity.
    + reflexivity.
Defined.

(** C5 as stated fails twice for the default workspace: in a process
    without [HOME] and without a password entry no path is returned,
    [RuntimeError] is raised; and with the relative [HOME=relhome] the
    path returned is relative. *)
Lemma workspace_path_default_counterexample :
  AgentDefaults.workspace (AgentsConfig.defaults (Config.agents Config.default))
    = "~/.nanobot/workspace" /\
  Config.call (Config.workspace_path env_deploy) Config.default
    = Raise Could_not_determine_home_directory /\
  Config.call (Config.workspace_path env_relhome) Config.default
    = Ok (mk_path "" ["relhome"; ".nanobot"; "workspace"]) /\
  is_absolute (mk_path "" ["relhome"; ".nanobot"; "workspace"]) = false.
Proof. repeat split; reflexivity. Qed.
